(** * NFL Team Stats API: the lookup and comparison handlers of [src/app.py]

    The service answers three read-only requests over the list of team
    objects that [load_teams] reads from [assets/teams.json]:
    [get_teams], [get_team] and [compare_teams].  The handlers are embedded
    as functions of the list returned by [load_teams]; a handler either
    returns a value, raises [HTTPException], or dies with one of the Python
    exceptions that indexing and comparing JSON values can raise. *)

From Stdlib Require Import ZArith String Ascii List Lia.
From stdpp Require Import base option list gmap strings.

Local Open Scope string_scope.
Local Open Scope Z_scope.

(** ** JSON data as [json.load] yields it *)

(** The values of a team object: [null], booleans, integers, strings and
    nested objects.  JSON reals (Python [float]) and arrays are outside this
    model. *)
#[warnings="-register-all"]
Inductive value : Type :=
| VNone
| VBool (b : bool)
| VInt (n : Z)
| VStr (s : string)
| VDict (d : gmap string value).

(** A team is a Python [dict] with string keys. *)
Abbreviation team := (gmap string value).

(** ** Outcomes of a handler *)

Inductive pyerror : Type :=
| KeyError (k : string)
| AttributeError
| TypeError.

Inductive outcome (A : Type) : Type :=
| Ok (a : A)
| HTTPException (status_code : Z) (detail : string)
| Raise (e : pyerror).

Arguments Ok {A} a.
Arguments HTTPException {A} status_code detail.
Arguments Raise {A} e.

(** Sequencing: an exception raised by [m] ends the handler. *)
Definition bind {A B : Type} (m : outcome A) (k : A -> outcome B) : outcome B :=
  match m with
  | Ok a => k a
  | HTTPException c d => HTTPException c d
  | Raise e => Raise e
  end.

Notation "x <- m ;; k" := (bind m (fun x => k))
  (at level 100, m at next level, k at level 200, right associativity).

(** ** Python primitives used by the handlers *)

(** [t[k]]: a missing key raises [KeyError]. *)
Definition getitem (t : team) (k : string) : outcome value :=
  match t !! k with
  | Some v => Ok v
  | None => Raise (KeyError k)
  end.

(** Booleans are integers in Python: [True] is [1] and [False] is [0]. *)
Definition py_num (v : value) : option Z :=
  match v with
  | VInt n => Some n
  | VBool b => Some (if b then 1 else 0)
  | _ => None
  end.

(** [x > y]: numbers compare by value, strings lexicographically (the
    byte order of UTF-8 is the order of the code points), anything else
    raises [TypeError]. *)
Definition py_gt (x y : value) : outcome bool :=
  match x, y with
  | VStr s, VStr s' => Ok (String.ltb s' s)
  | _, _ =>
      match py_num x, py_num y with
      | Some a, Some b => Ok (Z.ltb b a)
      | _, _ => Raise TypeError
      end
  end.

(** [x < y]. *)
Definition py_lt (x y : value) : outcome bool :=
  match x, y with
  | VStr s, VStr s' => Ok (String.ltb s s')
  | _, _ =>
      match py_num x, py_num y with
      | Some a, Some b => Ok (Z.ltb a b)
      | _, _ => Raise TypeError
      end
  end.

(** [str.lower] restricted to ASCII letters, for running the handlers on
    concrete data. *)
Definition lower_ascii (c : ascii) : ascii :=
  let n := nat_of_ascii c in
  if (Nat.leb 65 n && Nat.leb n 90)%bool then ascii_of_nat (n + 32) else c.

Fixpoint ascii_lower (s : string) : string :=
  match s with
  | EmptyString => EmptyString
  | String c s' => String (lower_ascii c) (ascii_lower s')
  end.

(** The value returned by [compare_teams]: a dict with exactly these three
    keys. *)
Record comparison : Type := {
  team_a : team;
  team_b : team;
  higher_scoring_team : value
}.

(** ** The handlers *)

Section Service.

(** [str.lower] maps a string through the Unicode lowercase table, which
    is not part of the repository: the handlers take it as a parameter. *)
Variable lower : string -> string.

(** [v.lower()]: only [str] has the method. *)
Definition str_lower (v : value) : outcome string :=
  match v with
  | VStr s => Ok (lower s)
  | _ => Raise AttributeError
  end.

(** The loop condition [t["name"].lower() == name.lower()]. *)
Definition name_matches (t : team) (name : string) : outcome bool :=
  n <- getitem t "name" ;;
  l <- str_lower n ;;
  Ok (String.eqb l (lower name)).

(** [get_teams]: returns what [load_teams] returned. *)
Definition get_teams (teams : list team) : list team := teams.

(** [get_team]: the first team whose name matches, else a 404. *)
Fixpoint get_team (teams : list team) (team_name : string) : outcome team :=
  match teams with
  | [] => HTTPException 404 "Team not found"
  | t :: rest =>
      m <- name_matches t team_name ;;
      if m then Ok t else get_team rest team_name
  end.

(** The local function [find] of [compare_teams]: [None] when the loop
    ends without a match. *)
Fixpoint find (teams : list team) (name : string) : outcome (option team) :=
  match teams with
  | [] => Ok None
  | t :: rest =>
      m <- name_matches t name ;;
      if m then Ok (Some t) else find rest name
  end.

(** The [if]/[elif] chain that computes [higher]. *)
Definition higher_of (a b : team) : outcome value :=
  na <- getitem a "name" ;;
  la <- str_lower na ;;
  nb <- getitem b "name" ;;
  lb <- str_lower nb ;;
  if String.eqb la lb then Ok (VStr "same team")
  else
    pa <- getitem a "points_scored" ;;
    pb <- getitem b "points_scored" ;;
    gt <- py_gt pa pb ;;
    if gt then getitem a "name"
    else
      pa' <- getitem a "points_scored" ;;
      pb' <- getitem b "points_scored" ;;
      lt <- py_lt pa' pb' ;;
      if lt then getitem b "name" else Ok (VStr "tie").

(** [compare_teams]: both scans run before the [None] test; the result
    carries the two records found and the verdict of the chain. *)
Definition compare_teams (teams : list team) (team_a team_b : string)
  : outcome comparison :=
  a <- find teams team_a ;;
  b <- find teams team_b ;;
  match a, b with
  | Some a, Some b =>
      higher <- higher_of a b ;;
      Ok {| team_a := a; team_b := b; higher_scoring_team := higher |}
  | _, _ => HTTPException 404 "One or both teams not found"
  end.

(** ** Case-insensitive matching, as a relation *)

(** [t] is stored under a name that equals [q] once both are lowered. *)
Definition matches (t : team) (q : string) : Prop :=
  exists n, t !! "name" = Some (VStr n) /\ lower n = lower q.

(** [t] carries a string name that differs from [q] once both are lowered:
    the loop steps over it. *)
Definition skipped (t : team) (q : string) : Prop :=
  exists n, t !! "name" = Some (VStr n) /\ lower n <> lower q.

(** [t] is the first team of [teams] that matches [q]. *)
Definition first_match (teams : list team) (q : string) (t : team) : Prop :=
  exists i : nat,
    teams !! i = Some t /\ matches t q /\
    forall (j : nat) (u : team), (j < i)%nat -> teams !! j = Some u -> ~ matches u q.

(** What [get_team] makes of the answer of [find]. *)
Definition of_find (o : outcome (option team)) : outcome team :=
  match o with
  | Ok (Some t) => Ok t
  | Ok None => HTTPException 404 "Team not found"
  | HTTPException c d => HTTPException c d
  | Raise e => Raise e
  end.

(** Two stored names are equal once both are lowered. *)
Definition same_name_ci (u t : team) : Prop :=
  exists nu nt,
    u !! "name" = Some (VStr nu) /\ t !! "name" = Some (VStr nt) /\
    lower nu = lower nt.

End Service.

(** The answer of [compare_teams] with [team_a] and [team_b] exchanged. *)
Definition swapped (o : outcome comparison) : outcome comparison :=
  match o with
  | Ok r => Ok {| team_a := team_b r; team_b := team_a r;
                  higher_scoring_team := higher_scoring_team r |}
  | HTTPException c d => HTTPException c d
  | Raise e => Raise e
  end.

(** [t] is a record of [teams], key for key. *)
Definition passed_through (teams : list team) (t : team) : Prop :=
  exists s : team, s ∈ teams /\ forall k : string, t !! k = s !! k.

(** Two records agree on the two keys the handlers index. *)
Definition same_core (t t' : team) : Prop :=
  t !! "name" = t' !! "name" /\ t !! "points_scored" = t' !! "points_scored".

(** [t] and [t'] sit at one index of [teams] and [teams']. *)
Definition same_place (teams teams' : list team) (t t' : team) : Prop :=
  exists i : nat, teams !! i = Some t /\ teams' !! i = Some t'.

(** Two outcomes of one kind: the same exception, or two results related
    by [R]. *)
Definition alike {A : Type} (R : A -> A -> Prop) (o o' : outcome A) : Prop :=
  match o, o' with
  | Ok a, Ok a' => R a a'
  | HTTPException c d, HTTPException c' d' => c = c' /\ d = d'
  | Raise e, Raise e' => e = e'
  | _, _ => False
  end.

(** Records found at one place of two collections that agree on the two
    keys. *)
Definition same_find (teams teams' : list team) (o o' : option team) : Prop :=
  match o, o' with
  | Some t, Some t' => same_place teams teams' t t' /\ same_core t t'
  | None, None => True
  | _, _ => False
  end.

(** Two comparisons of records at the same places, with one verdict. *)
Definition same_verdict (teams teams' : list team) (r r' : comparison) : Prop :=
  same_place teams teams' (team_a r) (team_a r') /\
  same_place teams teams' (team_b r) (team_b r') /\
  higher_scoring_team r = higher_scoring_team r'.

(** ** The data model of the specification *)

(** A team object carries a string [name] and an integer [points_scored];
    any other key is allowed. *)
Definition has_name (t : team) : bool :=
  match t !! "name" with
  | Some (VStr _) => true
  | _ => false
  end.

Definition has_points (t : team) : bool :=
  match t !! "points_scored" with
  | Some (VInt _) => true
  | _ => false
  end.

Definition is_team (t : team) : bool := has_name t && has_points t.

(** A collection is a list of team objects. *)
Definition is_collection (teams : list team) : bool := forallb is_team teams.

(** The part of the data model the lookup depends on: every record has a
    string [name]. *)
Definition named (teams : list team) : bool := forallb has_name teams.

(** The scenario of the specification. *)
Definition Eagles : team :=
  <["name" := VStr "Eagles"]> (<["points_scored" := VInt 30]> ∅).
Definition Cowboys : team :=
  <["name" := VStr "Cowboys"]> (<["points_scored" := VInt 24]> ∅).
Definition scenario : list team := [Eagles; Cowboys].

(** A collection with two records under one name, and one with two teams
    on the same score. *)
Definition eagles_old : team :=
  <["name" := VStr "eagles"]> (<["points_scored" := VInt 10]> ∅).
Definition duplicated : list team := [Eagles; eagles_old].
Definition Giants : team :=
  <["name" := VStr "Giants"]> (<["points_scored" := VInt 24]>
    (<["home" := VDict (<["city" := VStr "New York"]> ∅)]> ∅)).
Definition league : list team := [Eagles; Cowboys; Giants].

(** The league with other fields around the two keys the handlers index. *)
Definition Giants_moved : team :=
  <["name" := VStr "Giants"]> (<["points_scored" := VInt 24]>
    (<["stadium" := VStr "MetLife"]> ∅)).
Definition league_moved : list team := [Eagles; Cowboys; Giants_moved].

(** A file whose second object has no [name], and one whose second object
    has no [points_scored]. *)
Definition nameless : team := <["points_scored" := VInt 17]> ∅.
Definition broken : list team := [Eagles; nameless; Cowboys].
Definition scoreless : team := <["name" := VStr "Jets"]> ∅.
Definition partial : list team := [Eagles; scoreless].

(** ** The scan on arbitrary lists of objects *)

(** The loop has stepped over every record before index [i]. *)
Definition stepped_over (lower : string -> string) (teams : list team)
    (q : string) (i : nat) : Prop :=
  forall (j : nat) (u : team),
    (j < i)%nat -> teams !! j = Some u -> skipped lower u q.


(** The first outcome unless it is an [HTTPException], then the second. *)
Definition or_else {A : Type} (o o' : outcome A) : outcome A :=
  match o with
  | HTTPException _ _ => o'
  | _ => o
  end.

(** The pairs of values that [>] and [<] accept. *)
Definition comparable (x y : value) : bool :=
  match x, y with
  | VStr _, VStr _ => true
  | _, _ =>
      match py_num x, py_num y with
      | Some _, Some _ => true
      | _, _ => false
      end
  end.

(** ** The health endpoint *)




Definition tie_named : team :=
  <["name" := VStr "tie"]> (<["points_scored" := VInt 40]> ∅).
Definition odd_league : list team := [Eagles; tie_named].
Definition Jets_text : team :=
  <["name" := VStr "Jets"]> (<["points_scored" := VStr "21"]> ∅).
Definition mixed : list team := [Eagles; Jets_text; scoreless].

(** * Runs of the scenario *)

Example scenario_get : get_team ascii_lower scenario "eagles" = Ok Eagles.
Proof. vm_compute. reflexivity. Qed.

Example scenario_404 :
  get_team ascii_lower scenario "Raiders" = HTTPException 404 "Team not found".
Proof. vm_compute. reflexivity. Qed.

Example scenario_compare :
  compare_teams ascii_lower scenario "Eagles" "cowboys"
  = Ok {| team_a := Eagles; team_b := Cowboys;
          higher_scoring_team := VStr "Eagles" |}.
Proof. vm_compute. reflexivity. Qed.

Example scenario_same :
  compare_teams ascii_lower scenario "Eagles" "Eagles"
  = Ok {| team_a := Eagles; team_b := Eagles;
          higher_scoring_team := VStr "same team" |}.
Proof. vm_compute. reflexivity. Qed.

Example scenario_compare_404 :
  compare_teams ascii_lower scenario "Eagles" "Raiders"
  = HTTPException 404 "One or both teams not found".
Proof. vm_compute. reflexivity. Qed.

Example league_tie :
  compare_teams ascii_lower league "giants" "COWBOYS"
  = Ok {| team_a := Giants; team_b := Cowboys;
          higher_scoring_team := VStr "tie" |}.
Proof. vm_compute. reflexivity. Qed.

Example league_lower_first :
  compare_teams ascii_lower league "cowboys" "EAGLES"
  = Ok {| team_a := Cowboys; team_b := Eagles;
          higher_scoring_team := VStr "Eagles" |}.
Proof. vm_compute. reflexivity. Qed.

(** The loop stops at the first match, so a later malformed object is only
    reached by a query that passes it. *)
Example broken_before : get_team ascii_lower broken "eagles" = Ok Eagles.
Proof. vm_compute. reflexivity. Qed.

Example broken_after :
  get_team ascii_lower broken "cowboys" = Raise (KeyError "name").
Proof. vm_compute. reflexivity. Qed.

Example partial_same :
  compare_teams ascii_lower partial "jets" "JETS"
  = Ok {| team_a := scoreless; team_b := scoreless;
          higher_scoring_team := VStr "same team" |}.
Proof. vm_compute. reflexivity. Qed.

Example partial_scores :
  compare_teams ascii_lower partial "eagles" "jets"
  = Raise (KeyError "points_scored").
Proof. vm_compute. reflexivity. Qed.

(** * Properties of the lookup *)

Section Lookup.

Variable lower : string -> string.

Lemma name_matches_true (t : team) (q : string) :
  name_matches lower t q = Ok true <-> matches lower t q.
Proof.
  unfold name_matches, matches, getitem, str_lower, bind.
  destruct (t !! "name") as [[| b | z | s | dict] |]; split; intro H;
    try discriminate; try (destruct H as (n & Hn & _); discriminate).
  - exists s. split; [reflexivity |].
    injection H as H. now apply String.eqb_eq.
  - destruct H as (n & Hn & Hl). injection Hn as ->.
    f_equal. now apply String.eqb_eq.
Qed.

Lemma name_matches_false (t : team) (q : string) :
  name_matches lower t q = Ok false <-> skipped lower t q.
Proof.
  unfold name_matches, skipped, getitem, str_lower, bind.
  destruct (t !! "name") as [[| b | z | s | dict] |]; split; intro H;
    try discriminate; try (destruct H as (n & Hn & _); discriminate).
  - exists s. split; [reflexivity |].
    injection H as H. now apply String.eqb_neq.
  - destruct H as (n & Hn & Hl). injection Hn as ->.
    f_equal. now apply String.eqb_neq.
Qed.

Lemma matches_skipped (t : team) (q : string) :
  matches lower t q -> skipped lower t q -> False.
Proof.
  intros (n & Hn & Hl) (n' & Hn' & Hl').
  rewrite Hn in Hn'. injection Hn' as <-. contradiction.
Qed.

(** On a record with a string name the loop condition never raises. *)
Lemma has_name_str (t : team) :
  has_name t = true -> exists n, t !! "name" = Some (VStr n).
Proof.
  unfold has_name.
  destruct (t !! "name") as [[| b | z | s | dict] |]; try discriminate.
  intros _. now exists s.
Qed.

Lemma has_points_int (t : team) :
  has_points t = true -> exists p, t !! "points_scored" = Some (VInt p).
Proof.
  unfold has_points.
  destruct (t !! "points_scored") as [[| b | z | s | dict] |]; try discriminate.
  intros _. now exists z.
Qed.

Lemma has_name_decides (t : team) (q : string) :
  has_name t = true -> matches lower t q \/ skipped lower t q.
Proof.
  intros Ht. destruct (has_name_str t Ht) as [n Hn].
  destruct (string_dec (lower n) (lower q)) as [E | E].
  - left. now exists n.
  - right. now exists n.
Qed.

Lemma named_cons (t : team) (teams : list team) :
  named (t :: teams) = true <-> has_name t = true /\ named teams = true.
Proof. unfold named. simpl. apply andb_true_iff. Qed.

Lemma is_collection_named (teams : list team) :
  is_collection teams = true -> named teams = true.
Proof.
  unfold is_collection, named. rewrite !forallb_forall.
  intros H t Ht. specialize (H t Ht). unfold is_team in H.
  now apply andb_true_iff in H as [H _].
Qed.

Lemma is_collection_team (teams : list team) (t : team) :
  is_collection teams = true -> t ∈ teams ->
  has_name t = true /\ has_points t = true.
Proof.
  unfold is_collection. rewrite forallb_forall. intros H Ht.
  apply list_elem_of_In in Ht. specialize (H t Ht).
  now apply andb_true_iff in H.
Qed.

(** [get_team] runs the loop of [find] and turns its [None] into a 404. *)
Lemma get_team_of_find (teams : list team) (q : string) :
  get_team lower teams q = of_find (find lower teams q).
Proof.
  induction teams as [| t rest IH]; simpl; [reflexivity |].
  destruct (name_matches lower t q) as [[|] | c d | e]; simpl; auto.
Qed.

(** The loop, step by step. *)
Lemma find_nil (q : string) : find lower [] q = Ok None.
Proof. reflexivity. Qed.

Lemma find_hit (t : team) (rest : list team) (q : string) :
  matches lower t q -> find lower (t :: rest) q = Ok (Some t).
Proof.
  intros H. apply name_matches_true in H. simpl. now rewrite H.
Qed.

Lemma find_skip (t : team) (rest : list team) (q : string) :
  skipped lower t q -> find lower (t :: rest) q = find lower rest q.
Proof.
  intros H. apply name_matches_false in H. simpl. now rewrite H.
Qed.

(** When every record has a string name [find] never raises: it answers
    the first match, or [None] when no team matches. *)
Lemma find_some_first (teams : list team) (q : string) (t : team) :
  named teams = true ->
  find lower teams q = Ok (Some t) <-> first_match lower teams q t.
Proof.
  induction teams as [| u rest IH]; intros Hc.
  - split; [discriminate |]. intros (i & Hi & _). destruct i; discriminate.
  - apply named_cons in Hc as [Hu Hc]. specialize (IH Hc).
    destruct (has_name_decides u q Hu) as [Hm | Hs].
    + rewrite (find_hit u rest q Hm). split.
      * intros [= <-]. exists 0%nat. repeat split; auto. intros j v Hj. lia.
      * intros (i & Hi & _ & Hpre). destruct i as [| i].
        -- simpl in Hi. now injection Hi as ->.
        -- exfalso. apply (Hpre 0%nat u); [lia | reflexivity | assumption].
    + rewrite (find_skip u rest q Hs), IH. split.
      * intros (i & Hi & Hm & Hpre). exists (S i). repeat split; auto.
        intros [| j] v Hj Hv.
        -- simpl in Hv. injection Hv as <-. intro Hm'.
           exact (matches_skipped u q Hm' Hs).
        -- apply (Hpre j v); [lia | exact Hv].
      * intros (i & Hi & Hm & Hpre). destruct i as [| i].
        -- simpl in Hi. injection Hi as ->. destruct (matches_skipped t q Hm Hs).
        -- exists i. repeat split; auto.
           intros j v Hj Hv. apply (Hpre (S j) v); [lia | exact Hv].
Qed.

Lemma find_none_iff (teams : list team) (q : string) :
  named teams = true ->
  find lower teams q = Ok None <-> forall t, t ∈ teams -> ~ matches lower t q.
Proof.
  induction teams as [| u rest IH]; intros Hc.
  - split; [| reflexivity]. intros _ t Ht. inversion Ht.
  - apply named_cons in Hc as [Hu Hc]. specialize (IH Hc).
    destruct (has_name_decides u q Hu) as [Hm | Hs].
    + rewrite (find_hit u rest q Hm). split; [discriminate |].
      intros H. exfalso. apply (H u); [left | assumption].
    + rewrite (find_skip u rest q Hs), IH. split.
      * intros H t Ht. apply elem_of_cons in Ht as [-> | Ht]; [| now apply H].
        intro Hm. exact (matches_skipped u q Hm Hs).
      * intros H t Ht. apply H. now right.
Qed.

(** When every record has a string name [find] returns. *)
Lemma find_total (teams : list team) (q : string) :
  named teams = true -> exists o, find lower teams q = Ok o.
Proof.
  induction teams as [| u rest IH]; intros Hc.
  - now exists None.
  - apply named_cons in Hc as [Hu Hc].
    destruct (has_name_decides u q Hu) as [Hm | Hs].
    + exists (Some u). now apply find_hit.
    + rewrite (find_skip u rest q Hs). now apply IH.
Qed.

(** Whatever [find] returns is a stored record whose name matched. *)
Lemma find_some_stored (teams : list team) (q : string) (t : team) :
  find lower teams q = Ok (Some t) -> t ∈ teams /\ matches lower t q.
Proof.
  induction teams as [| u rest IH]; simpl; [discriminate |].
  destruct (name_matches lower u q) as [[|] | c d | e] eqn:E; simpl;
    try discriminate.
  - intros [= <-]. split; [left | now apply name_matches_true].
  - intros H. destruct (IH H) as [Hin Hm]. split; [now right | assumption].
Qed.

End Lookup.

(** * Properties of the comparison *)

Section Comparison.

Variable lower : string -> string.

Lemma name_matches_not_http (t : team) (q : string) (c : Z) (d : string) :
  name_matches lower t q <> HTTPException c d.
Proof.
  unfold name_matches, getitem, str_lower, bind.
  destruct (t !! "name") as [[| b | z | s | dict] |]; discriminate.
Qed.

(** When the loop condition raises, it raises the same exception for every
    query: the exception comes from the stored record alone. *)
Lemma name_matches_raise (t : team) (q q' : string) (e : pyerror) :
  name_matches lower t q = Raise e -> name_matches lower t q' = Raise e.
Proof.
  unfold name_matches, getitem, str_lower, bind.
  destruct (t !! "name") as [[| b | z | s | dict] |]; intros H;
    try discriminate; assumption.
Qed.

Lemma name_matches_ok (t : team) (q q' : string) (m : bool) :
  name_matches lower t q = Ok m -> exists m', name_matches lower t q' = Ok m'.
Proof.
  unfold name_matches, getitem, str_lower, bind.
  destruct (t !! "name") as [[| b | z | s | dict] |]; intros H;
    try discriminate. eauto.
Qed.

Lemma find_not_http (teams : list team) (q : string) (c : Z) (d : string) :
  find lower teams q <> HTTPException c d.
Proof.
  induction teams as [| t rest IH]; simpl; [discriminate |].
  destruct (name_matches lower t q) as [[|] | c' d' | e] eqn:E; simpl;
    try discriminate; [assumption |].
  now apply name_matches_not_http in E.
Qed.

(** Two scans of one collection that both raise, raise alike. *)
Lemma find_raise_same (teams : list team) (q q' : string) (e e' : pyerror) :
  find lower teams q = Raise e -> find lower teams q' = Raise e' -> e = e'.
Proof.
  induction teams as [| t rest IH]; simpl; [discriminate |].
  destruct (name_matches lower t q) as [[|] | c d | x] eqn:E; simpl;
    try discriminate.
  - destruct (name_matches_ok t q q' false E) as [m' E']. rewrite E'. simpl.
    destruct m'; [discriminate | apply IH].
  - rewrite (name_matches_raise t q q' x E). simpl. congruence.
Qed.

Lemma ltb_asym (s s' : string) : String.ltb s s' = true -> String.ltb s' s = false.
Proof.
  unfold String.ltb. rewrite (String.compare_antisym s' s).
  destruct (String.compare s s'); simpl; congruence.
Qed.

(** [x > y] and [y < x] are one test, and exclude [x < y]. *)
Lemma py_gt_lt (x y : value) : py_gt x y = py_lt y x.
Proof. destruct x, y; reflexivity. Qed.

Lemma py_gt_excludes_lt (x y : value) :
  py_gt x y = Ok true -> py_lt x y = Ok false.
Proof.
  destruct x as [| [|] | n | s | dx], y as [| [|] | m | s' | dy]; cbn;
    try discriminate; intros H; try reflexivity; f_equal;
    injection H as H;
    try (apply ltb_asym; assumption);
    apply Z.ltb_lt in H; apply Z.ltb_ge; lia.
Qed.

Lemma py_gt_total (x y : value) (g : bool) :
  py_gt x y = Ok g -> exists l, py_lt x y = Ok l.
Proof.
  destruct x as [| [|] | n | s | dx], y as [| [|] | m | s' | dy]; simpl;
    try discriminate; eauto.
Qed.

Lemma py_gt_raise (x y : value) (e : pyerror) :
  py_gt x y = Raise e -> py_lt x y = Raise e /\ py_gt y x = Raise e.
Proof.
  destruct x as [| [|] | n | s | dx], y as [| [|] | m | s' | dy]; simpl;
    try discriminate; auto.
Qed.

Lemma py_gt_not_http (x y : value) (c : Z) (d : string) :
  py_gt x y <> HTTPException c d.
Proof.
  destruct x as [| [|] | n | s | dx], y as [| [|] | m | s' | dy]; simpl; discriminate.
Qed.

(** The chain, once both names are known to be strings. *)
Lemma higher_of_same (a b : team) (na nb : string) :
  a !! "name" = Some (VStr na) -> b !! "name" = Some (VStr nb) ->
  lower na = lower nb ->
  higher_of lower a b = Ok (VStr "same team").
Proof.
  intros Ha Hb E. unfold higher_of, getitem, str_lower, bind.
  rewrite Ha, Hb. apply String.eqb_eq in E. now rewrite E.
Qed.

Lemma higher_of_scores (a b : team) (na nb : string) (pa pb : Z) :
  a !! "name" = Some (VStr na) -> b !! "name" = Some (VStr nb) ->
  lower na <> lower nb ->
  a !! "points_scored" = Some (VInt pa) ->
  b !! "points_scored" = Some (VInt pb) ->
  higher_of lower a b =
    Ok (if pb <? pa then VStr na else if pa <? pb then VStr nb else VStr "tie").
Proof.
  intros Ha Hb E Hpa Hpb. unfold higher_of, getitem, str_lower, bind.
  rewrite Ha, Hb, Hpa, Hpb. apply String.eqb_neq in E. rewrite E. simpl.
  destruct (pb <? pa); [reflexivity |]. now destruct (pa <? pb).
Qed.

(** Exchanging the two teams does not change the chain's answer. *)
Lemma higher_of_swap (a b : team) (na nb : string) :
  a !! "name" = Some (VStr na) -> b !! "name" = Some (VStr nb) ->
  higher_of lower b a = higher_of lower a b.
Proof.
  intros Ha Hb. unfold higher_of, getitem, str_lower, bind.
  rewrite Ha, Hb. rewrite (String.eqb_sym (lower nb) (lower na)).
  destruct (String.eqb (lower na) (lower nb)); [reflexivity |].
  destruct (a !! "points_scored") as [pa |], (b !! "points_scored") as [pb |];
    try reflexivity.
  rewrite (py_gt_lt pb pa), <- (py_gt_lt pa pb).
  destruct (py_gt pa pb) as [[|] | c d | e] eqn:G.
  - rewrite (py_gt_excludes_lt pa pb G). reflexivity.
  - destruct (py_gt_total pa pb false G) as [l L]. rewrite L.
    destruct l; reflexivity.
  - now apply py_gt_not_http in G.
  - destruct (py_gt_raise pa pb e G) as [L _]. rewrite L. reflexivity.
Qed.

Lemma py_lt_not_http (x y : value) (c : Z) (d : string) :
  py_lt x y <> HTTPException c d.
Proof. rewrite <- py_gt_lt. apply py_gt_not_http. Qed.

(** The chain raises no [HTTPException]. *)
Lemma higher_of_not_http (a b : team) (c : Z) (d : string) :
  higher_of lower a b <> HTTPException c d.
Proof.
  unfold higher_of, getitem, str_lower, bind.
  destruct (a !! "name") as [[| x | z | s | dict] |]; try discriminate.
  destruct (b !! "name") as [[| x | z | s' | dict] |]; try discriminate.
  destruct (String.eqb (lower s) (lower s')); try discriminate.
  destruct (a !! "points_scored") as [pa |]; try discriminate.
  destruct (b !! "points_scored") as [pb |]; try discriminate.
  destruct (py_gt pa pb) as [[|] | c' d' | e] eqn:G; try discriminate.
  - destruct (py_lt pa pb) as [[|] | c' d' | e] eqn:L; try discriminate.
    now apply py_lt_not_http in L.
  - now apply py_gt_not_http in G.
Qed.

Lemma higher_of_total (a b : team) :
  has_name a = true -> has_points a = true ->
  has_name b = true -> has_points b = true ->
  exists h, higher_of lower a b = Ok h.
Proof.
  intros Ha Pa Hb Pb.
  destruct (has_name_str a Ha) as [na Hna], (has_name_str b Hb) as [nb Hnb].
  destruct (has_points_int a Pa) as [pa Hpa], (has_points_int b Pb) as [pb Hpb].
  destruct (string_dec (lower na) (lower nb)) as [E | E].
  - rewrite (higher_of_same a b na nb Hna Hnb E). eauto.
  - rewrite (higher_of_scores a b na nb pa pb Hna Hnb E Hpa Hpb). eauto.
Qed.

(** [compare_teams] with the arguments exchanged gives the exchanged
    answer, on every input, exceptions included. *)
Lemma compare_teams_swapped (teams : list team) (qa qb : string) :
  compare_teams lower teams qb qa = swapped (compare_teams lower teams qa qb).
Proof.
  unfold compare_teams, bind.
  destruct (find lower teams qa) as [[a |] | c d | e] eqn:Fa;
    destruct (find lower teams qb) as [[b |] | c' d' | e'] eqn:Fb;
    try reflexivity;
    try (now apply find_not_http in Fa); try (now apply find_not_http in Fb).
  - destruct (find_some_stored lower teams qa a Fa) as [_ (na & Hna & _)].
    destruct (find_some_stored lower teams qb b Fb) as [_ (nb & Hnb & _)].
    rewrite (higher_of_swap a b na nb Hna Hnb).
    destruct (higher_of lower a b); reflexivity.
  - simpl. now rewrite (find_raise_same teams qa qb e e' Fa Fb).
Qed.

End Comparison.

(** * The lookup and the scan of [compare_teams] *)

Section Agreement.

Variable lower : string -> string.

Lemma get_team_ok_find (teams : list team) (q : string) (t : team) :
  get_team lower teams q = Ok t <-> find lower teams q = Ok (Some t).
Proof.
  rewrite get_team_of_find.
  destruct (find lower teams q) as [[u |] | c d | e]; simpl;
    split; intros H; try discriminate; congruence.
Qed.

Lemma get_team_404_find (teams : list team) (q : string) :
  get_team lower teams q = HTTPException 404 "Team not found"
  <-> find lower teams q = Ok None.
Proof.
  rewrite get_team_of_find.
  destruct (find lower teams q) as [[u |] | c d | e] eqn:F; simpl;
    split; intros H; try discriminate; try reflexivity.
  now apply find_not_http in F.
Qed.

Lemma get_team_raise_find (teams : list team) (q : string) (e : pyerror) :
  get_team lower teams q = Raise e <-> find lower teams q = Raise e.
Proof.
  rewrite get_team_of_find.
  destruct (find lower teams q) as [[u |] | c d | e']; simpl;
    split; intros H; try discriminate; congruence.
Qed.

(** [compare_teams] once both scans have answered. *)
Lemma compare_teams_found (teams : list team) (qa qb : string) (a b : team) :
  find lower teams qa = Ok (Some a) -> find lower teams qb = Ok (Some b) ->
  compare_teams lower teams qa qb =
    (higher <- higher_of lower a b ;;
     Ok {| team_a := a; team_b := b; higher_scoring_team := higher |}).
Proof. intros Fa Fb. unfold compare_teams. rewrite Fa. simpl. now rewrite Fb. Qed.

Lemma compare_teams_missing (teams : list team) (qa qb : string)
    (a b : option team) :
  find lower teams qa = Ok a -> find lower teams qb = Ok b ->
  a = None \/ b = None ->
  compare_teams lower teams qa qb
  = HTTPException 404 "One or both teams not found".
Proof.
  intros Fa Fb H. unfold compare_teams. rewrite Fa. simpl. rewrite Fb. simpl.
  destruct H as [-> | ->]; [reflexivity | now destruct a].
Qed.

(** On a collection of team objects [compare_teams] returns a comparison
    as soon as both scans find a team. *)
Lemma compare_teams_total (teams : list team) (qa qb : string) (a b : team) :
  is_collection teams = true ->
  find lower teams qa = Ok (Some a) -> find lower teams qb = Ok (Some b) ->
  exists h,
    compare_teams lower teams qa qb
    = Ok {| team_a := a; team_b := b; higher_scoring_team := h |}.
Proof.
  intros Hc Fa Fb.
  destruct (find_some_stored lower teams qa a Fa) as [Ia _].
  destruct (find_some_stored lower teams qb b Fb) as [Ib _].
  destruct (is_collection_team teams a Hc Ia) as [Na Pa].
  destruct (is_collection_team teams b Hc Ib) as [Nb Pb].
  destruct (higher_of_total lower a b Na Pa Nb Pb) as [h Hh].
  exists h. rewrite (compare_teams_found teams qa qb a b Fa Fb), Hh.
  reflexivity.
Qed.

End Agreement.

(** * The handlers index [name] and [points_scored] only *)

Section Frame.

Variable lower : string -> string.

Lemma alike_mono {A : Type} (R R' : A -> A -> Prop) (o o' : outcome A) :
  (forall a a', R a a' -> R' a a') -> alike R o o' -> alike R' o o'.
Proof. intros H. destruct o, o'; simpl; auto. Qed.

Lemma same_place_cons (t t' u u' : team) (teams teams' : list team) :
  same_place teams teams' u u' -> same_place (t :: teams) (t' :: teams') u u'.
Proof. intros (i & H & H'). now exists (S i). Qed.

Lemma name_matches_core (t t' : team) (q : string) :
  same_core t t' -> name_matches lower t q = name_matches lower t' q.
Proof. intros [Hn _]. unfold name_matches, getitem. now rewrite Hn. Qed.

Lemma higher_of_core (a a' b b' : team) :
  same_core a a' -> same_core b b' ->
  higher_of lower a b = higher_of lower a' b'.
Proof.
  intros [Na Pa] [Nb Pb]. unfold higher_of, getitem.
  now rewrite Na, Pa, Nb, Pb.
Qed.

Lemma find_frame (teams teams' : list team) (q : string) :
  Forall2 same_core teams teams' ->
  alike (same_find teams teams') (find lower teams q) (find lower teams' q).
Proof.
  induction 1 as [| t t' rest rest' Ht Hrest IH]; simpl; [exact I |].
  rewrite <- (name_matches_core t t' q Ht).
  destruct (name_matches lower t q) as [[|] | c d | e]; simpl; auto.
  - split; [now exists 0%nat | assumption].
  - revert IH. apply alike_mono. intros [u |] [u' |]; simpl; auto.
    intros [Hp Hc]. split; [now apply same_place_cons | assumption].
Qed.

Lemma get_team_frame (teams teams' : list team) (q : string) :
  Forall2 same_core teams teams' ->
  alike (same_place teams teams')
    (get_team lower teams q) (get_team lower teams' q).
Proof.
  intros H. rewrite !get_team_of_find.
  assert (F := find_frame teams teams' q H).
  destruct (find lower teams q) as [[t |] | c d | e],
    (find lower teams' q) as [[t' |] | c' d' | e']; simpl in *;
    try contradiction; auto.
  now destruct F.
Qed.

Lemma compare_teams_frame (teams teams' : list team) (qa qb : string) :
  Forall2 same_core teams teams' ->
  alike (same_verdict teams teams')
    (compare_teams lower teams qa qb) (compare_teams lower teams' qa qb).
Proof.
  intros H. unfold compare_teams.
  assert (Fa := find_frame teams teams' qa H).
  assert (Fb := find_frame teams teams' qb H).
  destruct (find lower teams qa) as [oa | c d | e],
    (find lower teams' qa) as [oa' | c' d' | e']; simpl in *;
    try contradiction; auto.
  destruct (find lower teams qb) as [ob | c d | e],
    (find lower teams' qb) as [ob' | c' d' | e']; simpl in *;
    try contradiction; auto;
    try (destruct oa, oa'; simpl in *; try contradiction; auto; fail).
  destruct oa as [a |], oa' as [a' |], ob as [b |], ob' as [b' |];
    simpl in *; try contradiction; auto.
  destruct Fa as [Pa Ca], Fb as [Pb Cb].
  rewrite (higher_of_core a a' b b' Ca Cb).
  destruct (higher_of lower a' b'); simpl; auto.
  repeat split; assumption.
Qed.

End Frame.

(** * The properties of the specification *)

(** C1: when the two query names resolve to teams whose stored names are
    equal once lowered, [compare_teams] answers with the sentinel
    "same team"; the scores are never looked at. *)
Theorem compare_teams_same_team (lower : string -> string)
    (teams : list team) (qa qb : string) (a b : team) (na nb : string) :
  get_team lower teams qa = Ok a ->
  get_team lower teams qb = Ok b ->
  a !! "name" = Some (VStr na) ->
  b !! "name" = Some (VStr nb) ->
  lower na = lower nb ->
  compare_teams lower teams qa qb
  = Ok {| team_a := a; team_b := b;
          higher_scoring_team := VStr "same team" |}.
Proof.
  intros Ga Gb Ha Hb E.
  apply get_team_ok_find in Ga. apply get_team_ok_find in Gb.
  rewrite (compare_teams_found lower teams qa qb a b Ga Gb).
  now rewrite (higher_of_same lower a b na nb Ha Hb E).
Qed.

Lemma compare_teams_same_team_scenario :
  compare_teams ascii_lower scenario "Eagles" "eAGLES"
  = Ok {| team_a := Eagles; team_b := Eagles;
          higher_scoring_team := VStr "same team" |}.
Proof.
  apply (compare_teams_same_team ascii_lower scenario "Eagles" "eAGLES"
           Eagles Eagles "Eagles" "Eagles"); vm_compute; reflexivity.
Defined.

(** C2: when the two query names resolve to teams [a] and [b] whose stored
    names differ once lowered, the answer names the team with the larger
    [points_scored], in the casing it is stored in, and is "tie" on equal
    scores. *)
Theorem compare_teams_by_score (lower : string -> string)
    (teams : list team) (qa qb : string) (a b : team) (na nb : string)
    (pa pb : Z) :
  get_team lower teams qa = Ok a ->
  get_team lower teams qb = Ok b ->
  a !! "name" = Some (VStr na) ->
  b !! "name" = Some (VStr nb) ->
  lower na <> lower nb ->
  a !! "points_scored" = Some (VInt pa) ->
  b !! "points_scored" = Some (VInt pb) ->
  exists r : comparison,
    compare_teams lower teams qa qb = Ok r /\
    team_a r = a /\ team_b r = b /\
    (pa > pb -> higher_scoring_team r = VStr na) /\
    (pa < pb -> higher_scoring_team r = VStr nb) /\
    (pa = pb -> higher_scoring_team r = VStr "tie").
Proof.
  intros Ga Gb Ha Hb E Hpa Hpb.
  apply get_team_ok_find in Ga. apply get_team_ok_find in Gb.
  rewrite (compare_teams_found lower teams qa qb a b Ga Gb).
  rewrite (higher_of_scores lower a b na nb pa pb Ha Hb E Hpa Hpb).
  eexists. split; [reflexivity |]. simpl. repeat split.
  - intros H. destruct (Z.ltb_spec pb pa); [reflexivity | lia].
  - intros H. destruct (Z.ltb_spec pb pa); [lia |].
    destruct (Z.ltb_spec pa pb); [reflexivity | lia].
  - intros H. destruct (Z.ltb_spec pb pa); [lia |].
    destruct (Z.ltb_spec pa pb); [lia | reflexivity].
Qed.

Lemma compare_teams_by_score_scenario :
  exists r : comparison,
    compare_teams ascii_lower scenario "Eagles" "cowboys" = Ok r /\
    higher_scoring_team r = VStr "Eagles".
Proof.
  destruct (compare_teams_by_score ascii_lower scenario "Eagles" "cowboys"
              Eagles Cowboys "Eagles" "Cowboys" 30 24)
    as (r & Hr & _ & _ & Hgt & _ & _);
    try (vm_compute; reflexivity).
  - vm_compute. discriminate.
  - exists r. split; [exact Hr | apply Hgt; lia].
Defined.

(** C3: on a collection whose records all carry a string name, [get_team]
    returns exactly the first team, in the order of the collection, whose
    stored name equals the query once both are lowered; of several teams
    under one name it returns the earliest. *)
Theorem get_team_first_match (lower : string -> string)
    (teams : list team) (q : string) (t : team) :
  named teams = true ->
  get_team lower teams q = Ok t <-> first_match lower teams q t.
Proof.
  intros Hc. rewrite get_team_ok_find. now apply find_some_first.
Qed.

Lemma get_team_first_match_duplicated :
  first_match ascii_lower duplicated "EAGLES" Eagles.
Proof.
  apply (get_team_first_match ascii_lower duplicated "EAGLES" Eagles);
    vm_compute; reflexivity.
Defined.

(** C4, as stated, fails on a collection that stores two teams under one
    name: the later one matches the query and is never returned. *)
Lemma get_team_shadowed_duplicate :
  is_collection duplicated = true /\
  eagles_old ∈ duplicated /\
  matches ascii_lower eagles_old "eagles" /\
  get_team ascii_lower duplicated "eagles" = Ok Eagles /\
  get_team ascii_lower duplicated "eagles" <> Ok eagles_old.
Proof.
  split; [reflexivity |]. split; [right; left |].
  split; [exists "eagles"; split; reflexivity |].
  assert (G : get_team ascii_lower duplicated "eagles" = Ok Eagles)
    by (vm_compute; reflexivity).
  split; [exact G |]. rewrite G. intros H.
  assert (H' := f_equal (fun o : outcome team =>
                 match o with Ok m => m !! "points_scored" | _ => None end) H).
  vm_compute in H'. discriminate.
Qed.

(** C4, amended: on a collection whose records all carry a string name, a
    stored team [T] that no earlier team shares its lowered name with is
    returned by [get_team] for every query equal to [T]'s name once both
    are lowered. *)
Theorem get_team_any_case (lower : string -> string)
    (teams : list team) (i : nat) (T : team) (q : string) :
  named teams = true ->
  teams !! i = Some T ->
  (forall (j : nat) (u : team),
     (j < i)%nat -> teams !! j = Some u -> ~ same_name_ci lower u T) ->
  matches lower T q ->
  get_team lower teams q = Ok T.
Proof.
  intros Hc Hi Hpre Hm.
  apply get_team_ok_find, find_some_first; [assumption |].
  exists i. repeat split; auto.
  intros j u Hj Hu (nu & Hnu & Eu). apply (Hpre j u Hj Hu).
  destruct Hm as (nT & HnT & ET). exists nu, nT. repeat split; congruence.
Qed.

Lemma get_team_any_case_scenario :
  get_team ascii_lower scenario "COWBOYS" = Ok Cowboys.
Proof.
  apply (get_team_any_case ascii_lower scenario 1 Cowboys "COWBOYS").
  - reflexivity.
  - reflexivity.
  - intros [| j] u Hj Hu; [| lia].
    injection Hu as <-. intros (nu & nT & Hnu & HnT & E).
    vm_compute in Hnu, HnT.
    injection Hnu as <-. injection HnT as <-. vm_compute in E. discriminate.
  - exists "Cowboys". split; reflexivity.
Defined.

(** C5: on a collection whose records all carry a string name,
    [compare_teams] raises the 404 "One or both teams not found" exactly
    when one of the two names matches no stored team; a comparison is
    returned only when both names match. *)
Theorem compare_teams_not_found_iff (lower : string -> string)
    (teams : list team) (qa qb : string) :
  named teams = true ->
  (compare_teams lower teams qa qb
     = HTTPException 404 "One or both teams not found"
   <-> (forall t, t ∈ teams -> ~ matches lower t qa) \/
       (forall t, t ∈ teams -> ~ matches lower t qb)) /\
  (forall r, compare_teams lower teams qa qb = Ok r ->
     (exists t, t ∈ teams /\ matches lower t qa) /\
     (exists t, t ∈ teams /\ matches lower t qb)).
Proof.
  intros Hc.
  destruct (find_total lower teams qa Hc) as [oa Fa].
  destruct (find_total lower teams qb Hc) as [ob Fb].
  assert (Na := find_none_iff lower teams qa Hc).
  assert (Nb := find_none_iff lower teams qb Hc).
  destruct oa as [a |], ob as [b |].
  - (* both found: the chain runs, and raises no HTTPException *)
    destruct (find_some_stored lower teams qa a Fa) as [Ia Ma].
    destruct (find_some_stored lower teams qb b Fb) as [Ib Mb].
    rewrite (compare_teams_found lower teams qa qb a b Fa Fb).
    split; [split |].
    + destruct (higher_of lower a b) as [h | c d | e] eqn:Hh; simpl;
        try discriminate.
      now apply higher_of_not_http in Hh.
    + intros [H | H]; exfalso; [apply (H a) | apply (H b)]; assumption.
    + intros _ _. split; eauto.
  - rewrite (compare_teams_missing lower teams qa qb _ _ Fa Fb) by now right.
    split; [split |]; try discriminate; auto.
    intros _. right. now apply Nb.
  - rewrite (compare_teams_missing lower teams qa qb _ _ Fa Fb) by now left.
    split; [split |]; try discriminate; auto.
    intros _. left. now apply Na.
  - rewrite (compare_teams_missing lower teams qa qb _ _ Fa Fb) by now left.
    split; [split |]; try discriminate; auto.
    intros _. left. now apply Na.
Qed.

Lemma compare_teams_not_found_scenario :
  compare_teams ascii_lower scenario "Eagles" "Raiders"
  = HTTPException 404 "One or both teams not found".
Proof.
  apply (compare_teams_not_found_iff ascii_lower scenario "Eagles" "Raiders");
    [reflexivity |].
  right. intros t Ht (n & Hn & E).
  apply elem_of_cons in Ht as [-> | Ht].
  - vm_compute in Hn. injection Hn as <-. vm_compute in E. discriminate.
  - apply elem_of_cons in Ht as [-> | Ht]; [| inversion Ht].
    vm_compute in Hn. injection Hn as <-. vm_compute in E. discriminate.
Defined.

(** C6: on a collection whose records all carry a string name, [get_team]
    raises the 404 "Team not found" exactly when no stored name equals the
    query once both are lowered. *)
Theorem get_team_not_found_iff (lower : string -> string)
    (teams : list team) (q : string) :
  named teams = true ->
  get_team lower teams q = HTTPException 404 "Team not found"
  <-> forall t, t ∈ teams -> ~ matches lower t q.
Proof.
  intros Hc. rewrite get_team_404_find. now apply find_none_iff.
Qed.

Lemma get_team_not_found_scenario :
  ~ matches ascii_lower Eagles "Raiders" /\
  ~ matches ascii_lower Cowboys "Raiders".
Proof.
  assert (H : forall t, t ∈ scenario -> ~ matches ascii_lower t "Raiders").
  { apply (get_team_not_found_iff ascii_lower scenario "Raiders");
      vm_compute; reflexivity. }
  split; apply H; [left | right; left].
Defined.

(** C7: [get_teams] returns the loaded collection itself: the same records,
    position by position, hence each once and in the original order. *)
Theorem get_teams_unmodified (teams : list team) :
  get_teams teams = teams /\
  length (get_teams teams) = length teams /\
  forall i : nat, get_teams teams !! i = teams !! i.
Proof. unfold get_teams. repeat split. Qed.

(** C8: the scan [find] inside [compare_teams] and the handler [get_team]
    agree on every collection and query: one returns a team exactly when the
    other returns that team, [find] returns [None] exactly when [get_team]
    raises its 404, and they raise the same Python exceptions. *)
Theorem find_agrees_with_get_team (lower : string -> string)
    (teams : list team) (q : string) :
  (forall t, find lower teams q = Ok (Some t) <-> get_team lower teams q = Ok t) /\
  (find lower teams q = Ok None
   <-> get_team lower teams q = HTTPException 404 "Team not found") /\
  (forall e, find lower teams q = Raise e <-> get_team lower teams q = Raise e).
Proof.
  split; [| split].
  - intros t. symmetry. apply get_team_ok_find.
  - symmetry. apply get_team_404_find.
  - intros e. symmetry. apply get_team_raise_find.
Qed.

(** C9: every record a handler returns is a record of the collection, key
    for key, so every field beyond [name] and [points_scored] comes back as
    it is stored; and the handlers index those two keys only: on two
    collections that agree on them, record by record, they raise alike or
    return the records at the same places with the same verdict. *)
Theorem records_pass_through (lower : string -> string) (teams : list team) :
  get_teams teams = teams /\
  (forall q t, get_team lower teams q = Ok t -> passed_through teams t) /\
  (forall qa qb r,
     compare_teams lower teams qa qb = Ok r ->
     passed_through teams (team_a r) /\ passed_through teams (team_b r)) /\
  (forall teams' : list team,
     Forall2 same_core teams teams' ->
     (forall q,
        alike (same_place teams teams')
          (get_team lower teams q) (get_team lower teams' q)) /\
     (forall qa qb,
        alike (same_verdict teams teams')
          (compare_teams lower teams qa qb)
          (compare_teams lower teams' qa qb))).
Proof.
  split; [reflexivity |]. split; [| split].
  - intros q t G. apply get_team_ok_find in G.
    destruct (find_some_stored lower teams q t G) as [Hin _].
    exists t. split; [assumption | reflexivity].
  - intros qa qb r. unfold compare_teams, bind.
    destruct (find lower teams qa) as [[a |] | c d | e] eqn:Fa; try discriminate;
      destruct (find lower teams qb) as [[b |] | c' d' | e'] eqn:Fb;
      try discriminate.
    destruct (higher_of lower a b) as [h | c d | e]; try discriminate.
    intros [= <-]. simpl.
    destruct (find_some_stored lower teams qa a Fa) as [Ia _].
    destruct (find_some_stored lower teams qb b Fb) as [Ib _].
    split; [exists a | exists b]; split; auto.
  - intros teams' H. split.
    + intros q. now apply get_team_frame.
    + intros qa qb. now apply compare_teams_frame.
Qed.

Lemma records_pass_through_league :
  passed_through league Giants /\
  alike (same_place league league_moved)
    (get_team ascii_lower league "giants")
    (get_team ascii_lower league_moved "giants").
Proof.
  destruct (records_pass_through ascii_lower league) as (_ & Hget & _ & Hframe).
  split.
  - apply (Hget "GIANTS"). vm_compute. reflexivity.
  - apply (Hframe league_moved).
    repeat constructor; vm_compute; reflexivity.
Defined.

(** C10: on a collection of team objects, exchanging the two query names
    leaves the outcome of [compare_teams] as it is up to the exchange of
    [team_a] and [team_b]: both calls raise the 404, or both return and
    carry the same [higher_scoring_team]. *)
Theorem compare_teams_symmetric (lower : string -> string)
    (teams : list team) (qa qb : string) :
  is_collection teams = true ->
  (compare_teams lower teams qa qb
     = HTTPException 404 "One or both teams not found" /\
   compare_teams lower teams qb qa
     = HTTPException 404 "One or both teams not found") \/
  (exists r r' : comparison,
     compare_teams lower teams qa qb = Ok r /\
     compare_teams lower teams qb qa = Ok r' /\
     higher_scoring_team r' = higher_scoring_team r /\
     team_a r' = team_b r /\ team_b r' = team_a r).
Proof.
  intros Hc. rewrite (compare_teams_swapped lower teams qa qb).
  assert (Hn := is_collection_named teams Hc).
  destruct (find_total lower teams qa Hn) as [oa Fa].
  destruct (find_total lower teams qb Hn) as [ob Fb].
  destruct oa as [a |], ob as [b |].
  - right.
    destruct (compare_teams_total lower teams qa qb a b Hc Fa Fb) as [h Hh].
    rewrite Hh. simpl. eexists. eexists. repeat split.
  - left.
    rewrite (compare_teams_missing lower teams qa qb _ _ Fa Fb) by now right.
    split; reflexivity.
  - left.
    rewrite (compare_teams_missing lower teams qa qb _ _ Fa Fb) by now left.
    split; reflexivity.
  - left.
    rewrite (compare_teams_missing lower teams qa qb _ _ Fa Fb) by now left.
    split; reflexivity.
Qed.

Lemma compare_teams_symmetric_league :
  exists r r' : comparison,
    compare_teams ascii_lower league "cowboys" "giants" = Ok r /\
    compare_teams ascii_lower league "giants" "cowboys" = Ok r' /\
    higher_scoring_team r' = higher_scoring_team r /\
    team_a r' = team_b r /\ team_b r' = team_a r.
Proof.
  destruct (compare_teams_symmetric ascii_lower league "cowboys" "giants")
    as [[H _] | H].
  - reflexivity.
  - vm_compute in H. discriminate.
  - exact H.
Defined.

(** * The scan on every list of objects *)

Section Scan.

Variable lower : string -> string.


Lemma name_matches_lowered (t : team) (q q' : string) :
  lower q = lower q' -> name_matches lower t q = name_matches lower t q'.
Proof. intros E. unfold name_matches. now rewrite E. Qed.

Lemma find_lowered (teams : list team) (q q' : string) :
  lower q = lower q' -> find lower teams q = find lower teams q'.
Proof.
  intros E. induction teams as [| t rest IH]; simpl; [reflexivity |].
  now rewrite (name_matches_lowered t q q' E), IH.
Qed.

Lemma stepped_over_nil (teams : list team) (q : string) :
  stepped_over lower teams q 0.
Proof. intros j u Hj. lia. Qed.

Lemma stepped_over_cons (t : team) (rest : list team) (q : string) (i : nat) :
  stepped_over lower (t :: rest) q (S i)
  <-> skipped lower t q /\ stepped_over lower rest q i.
Proof.
  split.
  - intros H. split.
    + apply (H 0%nat t); [lia | reflexivity].
    + intros j u Hj Hu. apply (H (S j) u); [lia | exact Hu].
  - intros [Ht H] [| j] u Hj Hu.
    + now injection Hu as <-.
    + apply (H j u); [lia | exact Hu].
Qed.

(** [find] returns [t]: [t] matches and everything before it was stepped
    over. *)
Lemma find_some_iff (teams : list team) (q : string) (t : team) :
  find lower teams q = Ok (Some t)
  <-> exists i : nat,
        teams !! i = Some t /\ matches lower t q /\ stepped_over lower teams q i.
Proof.
  induction teams as [| u rest IH].
  - split; [discriminate |]. intros (i & Hi & _). destruct i; discriminate.
  - simpl. destruct (name_matches lower u q) as [[|] | c d | e] eqn:E; simpl.
    + apply name_matches_true in E. split.
      * intros [= <-]. exists 0%nat.
        repeat split; auto using stepped_over_nil.
      * intros (i & Hi & _ & Hpre). destruct i as [| i].
        -- simpl in Hi. now injection Hi as ->.
        -- apply stepped_over_cons in Hpre as [Hs _].
           destruct (matches_skipped lower u q E Hs).
    + apply name_matches_false in E. rewrite IH. split.
      * intros (i & Hi & Hm & Hpre). exists (S i).
        repeat split; auto. now apply stepped_over_cons.
      * intros (i & Hi & Hm & Hpre). destruct i as [| i].
        -- simpl in Hi. injection Hi as ->.
           destruct (matches_skipped lower t q Hm E).
        -- exists i. apply stepped_over_cons in Hpre as [_ Hpre]. auto.
    + now apply name_matches_not_http in E.
    + split; [discriminate |]. intros (i & Hi & Hm & Hpre).
      destruct i as [| i].
      * simpl in Hi. injection Hi as ->.
        apply name_matches_true in Hm. congruence.
      * apply stepped_over_cons in Hpre as [Hs _].
        apply name_matches_false in Hs. congruence.
Qed.

(** [find] returns [None]: every record was stepped over. *)
Lemma find_none_all (teams : list team) (q : string) :
  find lower teams q = Ok None <-> forall t, t ∈ teams -> skipped lower t q.
Proof.
  induction teams as [| u rest IH].
  - split; [| reflexivity]. intros _ t Ht. inversion Ht.
  - simpl. destruct (name_matches lower u q) as [[|] | c d | e] eqn:E; simpl.
    + split; [discriminate |]. intros H.
      apply name_matches_true in E.
      destruct (matches_skipped lower u q E (H u ltac:(left))).
    + rewrite IH. apply name_matches_false in E. split.
      * intros H t Ht. apply elem_of_cons in Ht as [-> | Ht]; auto.
      * intros H t Ht. apply H. now right.
    + now apply name_matches_not_http in E.
    + split; [discriminate |]. intros H.
      assert (Hs := H u ltac:(left)). apply name_matches_false in Hs.
      congruence.
Qed.


(** The scan of a concatenation goes on into the second list only when the
    first has no match. *)
Lemma find_app (l1 l2 : list team) (q : string) :
  find lower (l1 ++ l2) q =
    match find lower l1 q with
    | Ok None => find lower l2 q
    | o => o
    end.
Proof.
  induction l1 as [| t rest IH]; simpl; [reflexivity |].
  destruct (name_matches lower t q) as [[|] | c d | e]; simpl; auto.
Qed.

End Scan.

(** * The verdict of the chain *)

Section Verdict.

Variable lower : string -> string.

Lemma py_gt_comparable (x y : value) :
  comparable x y = true -> exists g, py_gt x y = Ok g.
Proof.
  destruct x as [| [|] | n | s | dx], y as [| [|] | m | s' | dy]; simpl;
    try discriminate; eauto.
Qed.

Lemma py_gt_incomparable (x y : value) :
  comparable x y = false -> py_gt x y = Raise TypeError.
Proof.
  destruct x as [| [|] | n | s | dx], y as [| [|] | m | s' | dy]; simpl;
    try discriminate; reflexivity.
Qed.

Lemma py_lt_comparable (x y : value) :
  comparable x y = true -> exists l, py_lt x y = Ok l.
Proof.
  destruct x as [| [|] | n | s | dx], y as [| [|] | m | s' | dy]; simpl;
    try discriminate; eauto.
Qed.

(** The chain below its first test, for two records with string names. *)
Lemma higher_of_scored (a b : team) (na nb : string) (x y : value) :
  a !! "name" = Some (VStr na) -> b !! "name" = Some (VStr nb) ->
  lower na <> lower nb ->
  a !! "points_scored" = Some x -> b !! "points_scored" = Some y ->
  higher_of lower a b =
    match py_gt x y with
    | Ok true => Ok (VStr na)
    | Ok false =>
        match py_lt x y with
        | Ok true => Ok (VStr nb)
        | Ok false => Ok (VStr "tie")
        | HTTPException c d => HTTPException c d
        | Raise e => Raise e
        end
    | HTTPException c d => HTTPException c d
    | Raise e => Raise e
    end.
Proof.
  intros Ha Hb E Hx Hy. unfold higher_of, getitem, str_lower, bind.
  rewrite Ha, Hb, Hx, Hy. apply String.eqb_neq in E. rewrite E.
  destruct (py_gt x y) as [[|] | c d | e]; reflexivity.
Qed.

Lemma higher_of_no_score_a (a b : team) (na nb : string) :
  a !! "name" = Some (VStr na) -> b !! "name" = Some (VStr nb) ->
  lower na <> lower nb ->
  a !! "points_scored" = None ->
  higher_of lower a b = Raise (KeyError "points_scored").
Proof.
  intros Ha Hb E Hx. unfold higher_of, getitem, str_lower, bind.
  rewrite Ha, Hb, Hx. apply String.eqb_neq in E. now rewrite E.
Qed.

Lemma higher_of_no_score_b (a b : team) (na nb : string) (x : value) :
  a !! "name" = Some (VStr na) -> b !! "name" = Some (VStr nb) ->
  lower na <> lower nb ->
  a !! "points_scored" = Some x -> b !! "points_scored" = None ->
  higher_of lower a b = Raise (KeyError "points_scored").
Proof.
  intros Ha Hb E Hx Hy. unfold higher_of, getitem, str_lower, bind.
  rewrite Ha, Hb, Hx, Hy. apply String.eqb_neq in E. now rewrite E.
Qed.

(** Every way the chain can end, for two records with string names. *)
Lemma higher_of_cases (a b : team) (na nb : string) :
  a !! "name" = Some (VStr na) -> b !! "name" = Some (VStr nb) ->
  (lower na = lower nb /\ higher_of lower a b = Ok (VStr "same team")) \/
  (lower na <> lower nb /\
   ((a !! "points_scored" = None \/ b !! "points_scored" = None) /\
    higher_of lower a b = Raise (KeyError "points_scored")
    \/
    exists x y,
      a !! "points_scored" = Some x /\ b !! "points_scored" = Some y /\
      (comparable x y = false /\ higher_of lower a b = Raise TypeError
       \/
       comparable x y = true /\
       (higher_of lower a b = Ok (VStr na) \/
        higher_of lower a b = Ok (VStr nb) \/
        higher_of lower a b = Ok (VStr "tie"))))).
Proof.
  intros Ha Hb.
  destruct (string_dec (lower na) (lower nb)) as [E | E].
  { left. split; [assumption | now apply (higher_of_same lower a b na nb)]. }
  right. split; [assumption |].
  destruct (a !! "points_scored") as [x |] eqn:Hx.
  2:{ left. split; [now left |].
      now apply (higher_of_no_score_a a b na nb). }
  destruct (b !! "points_scored") as [y |] eqn:Hy.
  2:{ left. split; [now right |].
      now apply (higher_of_no_score_b a b na nb x). }
  right. exists x, y. split; [reflexivity |]. split; [reflexivity |].
  rewrite (higher_of_scored a b na nb x y Ha Hb E Hx Hy).
  destruct (comparable x y) eqn:C.
  - right. split; [reflexivity |].
    destruct (py_gt_comparable x y C) as [g ->].
    destruct (py_lt_comparable x y C) as [l ->].
    destruct g, l; auto.
  - left. split; [reflexivity |]. now rewrite (py_gt_incomparable x y C).
Qed.

(** A record deleted behind an earlier record of the same lowered name is
    not missed by the scan. *)
Lemma find_shadowed (pre mid post : list team) (u t : team) (q : string) :
  same_name_ci lower u t ->
  find lower (pre ++ u :: mid ++ t :: post) q
  = find lower (pre ++ u :: mid ++ post) q.
Proof.
  intros (nu & nt & Hu & Ht & E).
  rewrite !(find_app lower pre).
  destruct (find lower pre q) as [[w |] | c d | e]; try reflexivity.
  destruct (string_dec (lower nu) (lower q)) as [Eq | Eq].
  - rewrite !(find_hit lower u) by (now exists nu). reflexivity.
  - rewrite !(find_skip lower u) by (now exists nu).
    rewrite !(find_app lower mid).
    destruct (find lower mid q) as [[w |] | c d | e]; try reflexivity.
    apply find_skip. exists nt. split; [assumption | congruence].
Qed.

(** What an answer of [compare_teams] is made of. *)
Lemma compare_teams_ok_inv (teams : list team) (qa qb : string)
    (r : comparison) :
  compare_teams lower teams qa qb = Ok r ->
  find lower teams qa = Ok (Some (team_a r)) /\
  find lower teams qb = Ok (Some (team_b r)) /\
  higher_of lower (team_a r) (team_b r) = Ok (higher_scoring_team r).
Proof.
  unfold compare_teams, bind.
  destruct (find lower teams qa) as [[a |] | c d | e]; try discriminate;
    destruct (find lower teams qb) as [[b |] | c' d' | e']; try discriminate.
  destruct (higher_of lower a b) as [h | c d | e] eqn:H; try discriminate.
  intros [= <-]. simpl. auto.
Qed.


End Verdict.

(** * Further properties of the handlers *)

(** X1: on every list of objects, [get_team] returns [t] exactly when [t]
    sits at an index where its name matches the query and every record
    before that index carries a string name that does not match. *)
Theorem get_team_scan (lower : string -> string)
    (teams : list team) (q : string) (t : team) :
  get_team lower teams q = Ok t
  <-> exists i : nat,
        teams !! i = Some t /\ matches lower t q /\
        stepped_over lower teams q i.
Proof. rewrite get_team_ok_find. apply find_some_iff. Qed.

(** X2: on every list of objects, the empty one included, [get_team] raises
    its 404 exactly when every record carries a string name that does not
    match the query; a record without a string name never counts as a
    miss. *)
Theorem get_team_404_all (lower : string -> string)
    (teams : list team) (q : string) :
  get_team lower teams q = HTTPException 404 "Team not found"
  <-> forall t, t ∈ teams -> skipped lower t q.
Proof. rewrite get_team_404_find. apply find_none_all. Qed.


(** X4: the lookup in a concatenation is the lookup in the first list, and
    goes on to the second list only when the first answers 404; records
    appended to a collection never change a lookup that returned or died. *)
Theorem get_team_app (lower : string -> string)
    (l1 l2 : list team) (q : string) :
  get_team lower (l1 ++ l2) q
  = or_else (get_team lower l1 q) (get_team lower l2 q).
Proof.
  rewrite !get_team_of_find, find_app.
  destruct (find lower l1 q) as [[t |] | c d | e] eqn:F; try reflexivity.
  now apply find_not_http in F.
Qed.

(** X5: the handlers see a query only through its lowered form: two
    queries with the same lowered form get the same answer from [get_team]
    and, in either position, from [compare_teams], on every list of
    objects. *)
Theorem handlers_lowered_query (lower : string -> string)
    (teams : list team) (q q' : string) :
  lower q = lower q' ->
  get_team lower teams q = get_team lower teams q' /\
  (forall p, compare_teams lower teams q p = compare_teams lower teams q' p) /\
  (forall p, compare_teams lower teams p q = compare_teams lower teams p q').
Proof.
  intros E. assert (F := find_lowered lower teams q q' E). repeat split.
  - now rewrite !get_team_of_find, F.
  - intros p. unfold compare_teams. now rewrite F.
  - intros p. unfold compare_teams. now rewrite F.
Qed.

Lemma handlers_lowered_query_league :
  get_team ascii_lower league "GIANTS" = get_team ascii_lower league "giants" /\
  compare_teams ascii_lower league "GIANTS" "eagles"
  = compare_teams ascii_lower league "giants" "eagles" /\
  compare_teams ascii_lower league "eagles" "GIANTS"
  = compare_teams ascii_lower league "eagles" "giants".
Proof.
  destruct (handlers_lowered_query ascii_lower league "GIANTS" "giants")
    as (Hg & Hl & Hr); [reflexivity |].
  split; [exact Hg |]. split; [apply Hl | apply Hr].
Defined.

(** X6: a team returned by [get_team] carries a string name, and looking
    that stored name up returns the same team. *)
Theorem get_team_by_stored_name (lower : string -> string)
    (teams : list team) (q : string) (t : team) :
  get_team lower teams q = Ok t ->
  exists n : string,
    t !! "name" = Some (VStr n) /\ get_team lower teams n = Ok t.
Proof.
  intros G. apply get_team_ok_find in G.
  destruct (find_some_stored lower teams q t G) as [_ (n & Hn & E)].
  exists n. split; [assumption |].
  apply get_team_ok_find. now rewrite (find_lowered lower teams n q E).
Qed.

Lemma get_team_by_stored_name_league :
  exists n : string,
    Giants !! "name" = Some (VStr n) /\ get_team ascii_lower league n = Ok Giants.
Proof.
  apply (get_team_by_stored_name ascii_lower league "gIANTS" Giants).
  vm_compute. reflexivity.
Defined.

(** X7: the two records in an answer of [compare_teams] are the records
    [get_team] returns for the two names. *)
Theorem compare_teams_uses_get_team (lower : string -> string)
    (teams : list team) (qa qb : string) (r : comparison) :
  compare_teams lower teams qa qb = Ok r ->
  get_team lower teams qa = Ok (team_a r) /\
  get_team lower teams qb = Ok (team_b r).
Proof.
  unfold compare_teams, bind.
  destruct (find lower teams qa) as [[a |] | c d | e] eqn:Fa; try discriminate;
    destruct (find lower teams qb) as [[b |] | c' d' | e'] eqn:Fb;
    try discriminate.
  destruct (higher_of lower a b) as [h | c d | e]; try discriminate.
  intros [= <-]. simpl. split; now apply get_team_ok_find.
Qed.

Lemma compare_teams_uses_get_team_league :
  get_team ascii_lower league "giants" = Ok Giants /\
  get_team ascii_lower league "EAGLES" = Ok Eagles.
Proof.
  apply (compare_teams_uses_get_team ascii_lower league "giants" "EAGLES"
           {| team_a := Giants; team_b := Eagles;
              higher_scoring_team := VStr "Eagles" |}).
  vm_compute. reflexivity.
Defined.

(** X8: the verdict of [compare_teams] is always a string, and one of four:
    the sentinel "same team", the sentinel "tie", or the stored name of one
    of the two records of the answer; no third team is ever named. *)
Theorem compare_teams_verdict_range (lower : string -> string)
    (teams : list team) (qa qb : string) (r : comparison) :
  compare_teams lower teams qa qb = Ok r ->
  exists na nb : string,
    team_a r !! "name" = Some (VStr na) /\
    team_b r !! "name" = Some (VStr nb) /\
    (higher_scoring_team r = VStr "same team" \/
     higher_scoring_team r = VStr "tie" \/
     higher_scoring_team r = VStr na \/
     higher_scoring_team r = VStr nb).
Proof.
  intros H. destruct (compare_teams_ok_inv lower teams qa qb r H) as (Fa & Fb & Hh).
  destruct (find_some_stored lower teams qa _ Fa) as [_ (na & Hna & _)].
  destruct (find_some_stored lower teams qb _ Fb) as [_ (nb & Hnb & _)].
  exists na, nb. split; [assumption |]. split; [assumption |].
  destruct (higher_of_cases lower (team_a r) (team_b r) na nb Hna Hnb)
    as [[_ R] | [_ [[_ R] | (x & y & _ & _ & [[_ R] | [_ [R | [R | R]]]])]]];
    rewrite R in Hh; try discriminate; injection Hh as <-; auto.
Qed.

Lemma compare_teams_verdict_range_league :
  exists na nb : string,
    Giants !! "name" = Some (VStr na) /\
    Cowboys !! "name" = Some (VStr nb) /\
    (VStr "tie" = VStr "same team" \/ VStr "tie" = VStr "tie" \/
     VStr "tie" = VStr na \/ VStr "tie" = VStr nb).
Proof.
  apply (compare_teams_verdict_range ascii_lower league "giants" "cowboys"
           {| team_a := Giants; team_b := Cowboys;
              higher_scoring_team := VStr "tie" |}).
  vm_compute. reflexivity.
Defined.

(** X9: when neither of the two stored names is itself "same team" or
    "tie" and both scores are integers, the verdict tells the case apart:
    "same team" exactly for names equal once lowered, "tie" exactly for
    different names on equal scores, and a team's name exactly when its
    score is the larger. *)
Theorem compare_teams_verdict_decides (lower : string -> string)
    (teams : list team) (qa qb : string) (r : comparison)
    (na nb : string) (pa pb : Z) :
  compare_teams lower teams qa qb = Ok r ->
  team_a r !! "name" = Some (VStr na) ->
  team_b r !! "name" = Some (VStr nb) ->
  team_a r !! "points_scored" = Some (VInt pa) ->
  team_b r !! "points_scored" = Some (VInt pb) ->
  na <> "same team" -> na <> "tie" -> nb <> "same team" -> nb <> "tie" ->
  (higher_scoring_team r = VStr "same team" <-> lower na = lower nb) /\
  (higher_scoring_team r = VStr "tie" <-> lower na <> lower nb /\ pa = pb) /\
  (higher_scoring_team r = VStr na <-> lower na <> lower nb /\ pa > pb) /\
  (higher_scoring_team r = VStr nb <-> lower na <> lower nb /\ pa < pb).
Proof.
  intros H Hna Hnb Hpa Hpb A1 A2 B1 B2.
  destruct (compare_teams_ok_inv lower teams qa qb r H) as (_ & _ & Hh).
  destruct (string_dec (lower na) (lower nb)) as [E | E].
  - rewrite (higher_of_same lower _ _ na nb Hna Hnb E) in Hh.
    injection Hh as <-.
    split; [| split; [| split]]; split; intros K;
      first [ reflexivity | assumption | congruence
            | destruct K; contradiction ].
  - rewrite (higher_of_scores lower _ _ na nb pa pb Hna Hnb E Hpa Hpb) in Hh.
    injection Hh as <-.
    assert (N : na <> nb) by congruence.
    destruct (Z.ltb_spec pb pa); [| destruct (Z.ltb_spec pa pb)];
      (split; [| split; [| split]]); split; intros K;
      first [ reflexivity | congruence
            | split; [assumption | lia]
            | destruct K; lia ].
Qed.

Lemma compare_teams_verdict_decides_scenario :
  VStr "Eagles" = VStr "Eagles"
  <-> ascii_lower "Eagles" <> ascii_lower "Cowboys" /\ 30 > 24.
Proof.
  apply (compare_teams_verdict_decides ascii_lower scenario "eagles" "cowboys"
           {| team_a := Eagles; team_b := Cowboys;
              higher_scoring_team := VStr "Eagles" |} "Eagles" "Cowboys" 30 24);
    try (vm_compute; reflexivity); discriminate.
Defined.

(** The sentinels share the field with the names: a team stored as "tie"
    that scores more is reported by its name. *)
Example odd_league_tie :
  compare_teams ascii_lower odd_league "TIE" "eagles"
  = Ok {| team_a := tie_named; team_b := Eagles;
          higher_scoring_team := VStr "tie" |}.
Proof. vm_compute. reflexivity. Qed.

(** X10: on every list of objects, [compare_teams] raises an
    [HTTPException] exactly when neither lookup dies with a Python
    exception and one of them answers 404; it is then the 404 "One or both
    teams not found".  A malformed record met by either scan wins over the
    404, also when the other name is unknown. *)
Theorem compare_teams_404_after_scans (lower : string -> string)
    (teams : list team) (qa qb : string) (c : Z) (d : string) :
  compare_teams lower teams qa qb = HTTPException c d
  <-> c = 404 /\ d = "One or both teams not found" /\
      (forall e, get_team lower teams qa <> Raise e) /\
      (forall e, get_team lower teams qb <> Raise e) /\
      (get_team lower teams qa = HTTPException 404 "Team not found" \/
       get_team lower teams qb = HTTPException 404 "Team not found").
Proof.
  rewrite !get_team_404_find.
  assert (Ra : forall e, get_team lower teams qa <> Raise e
                         <-> find lower teams qa <> Raise e)
    by (intros e; now rewrite get_team_raise_find).
  assert (Rb : forall e, get_team lower teams qb <> Raise e
                         <-> find lower teams qb <> Raise e)
    by (intros e; now rewrite get_team_raise_find).
  unfold compare_teams, bind.
  destruct (find lower teams qa) as [[a |] | c' d' | e'] eqn:Fa.
  - destruct (find lower teams qb) as [[b |] | c'' d'' | e''] eqn:Fb.
    + split.
      * intros H. destruct (higher_of lower a b) as [h | c3 d3 | e3] eqn:Hh;
          try discriminate. now apply higher_of_not_http in Hh.
      * intros (_ & _ & _ & _ & [K | K]); discriminate.
    + split.
      * intros [= <- <-]. repeat split; auto.
        -- intros e. apply Ra. discriminate.
        -- intros e. apply Rb. discriminate.
      * intros (-> & -> & _). reflexivity.
    + now apply find_not_http in Fb.
    + split; [discriminate |].
      intros (_ & _ & _ & K & _). destruct (proj1 (Rb e'') (K e'')).
      reflexivity.
  - destruct (find lower teams qb) as [ob | c'' d'' | e''] eqn:Fb.
    + split.
      * intros [= <- <-]. repeat split; auto.
        -- intros e. apply Ra. discriminate.
        -- intros e. apply Rb. discriminate.
      * intros (-> & -> & _). reflexivity.
    + now apply find_not_http in Fb.
    + split; [discriminate |].
      intros (_ & _ & _ & K & _). destruct (proj1 (Rb e'') (K e'')).
      reflexivity.
  - now apply find_not_http in Fa.
  - split; [discriminate |].
    intros (_ & _ & K & _). destruct (proj1 (Ra e') (K e')). reflexivity.
Qed.


(** X12: when the two names resolve to records whose names differ once
    lowered, [compare_teams] dies with [KeyError] on [points_scored]
    exactly when one of the two records lacks the key, and with [TypeError]
    exactly when both carry it with values that [>] does not compare (a
    number against a string, [null], an object). *)
Theorem compare_teams_score_faults (lower : string -> string)
    (teams : list team) (qa qb : string) (a b : team) :
  get_team lower teams qa = Ok a ->
  get_team lower teams qb = Ok b ->
  ~ same_name_ci lower a b ->
  (compare_teams lower teams qa qb = Raise (KeyError "points_scored")
   <-> a !! "points_scored" = None \/ b !! "points_scored" = None) /\
  (compare_teams lower teams qa qb = Raise TypeError
   <-> exists x y,
         a !! "points_scored" = Some x /\ b !! "points_scored" = Some y /\
         comparable x y = false).
Proof.
  intros Ga Gb Hne.
  apply get_team_ok_find in Ga. apply get_team_ok_find in Gb.
  destruct (find_some_stored lower teams qa a Ga) as [_ (na & Hna & _)].
  destruct (find_some_stored lower teams qb b Gb) as [_ (nb & Hnb & _)].
  rewrite (compare_teams_found lower teams qa qb a b Ga Gb). unfold bind.
  destruct (higher_of_cases lower a b na nb Hna Hnb)
    as [[E _] | [_ [[M R] | (x & y & Hx & Hy & [[C R] | [C R]])]]].
  - destruct Hne. now exists na, nb.
  - rewrite R. split; split; try discriminate; auto.
    intros (x & y & Hx & Hy & _). destruct M; congruence.
  - rewrite R. split; split; try discriminate; eauto.
    intros [M | M]; congruence.
  - assert (O : exists h, higher_of lower a b = Ok h)
      by (destruct R as [R | [R | R]]; eauto).
    destruct O as [h ->]. split; split; try discriminate.
    + intros [M | M]; congruence.
    + intros (x' & y' & Hx' & Hy' & C'). congruence.
Qed.

Lemma compare_teams_score_faults_mixed :
  compare_teams ascii_lower mixed "eagles" "jets" = Raise TypeError.
Proof.
  apply (compare_teams_score_faults ascii_lower mixed "eagles" "jets"
           Eagles Jets_text).
  - reflexivity.
  - reflexivity.
  - intros (nu & nt & Hu & Ht & E). vm_compute in Hu, Ht.
    injection Hu as <-. injection Ht as <-. vm_compute in E. discriminate.
  - exists (VInt 30), (VStr "21"). repeat split.
Defined.

(** X13: a record stored behind another record of the same lowered name is
    dead data: deleting it changes no answer of [get_team] or
    [compare_teams], whatever the query. *)
Theorem shadowed_record_is_dead (lower : string -> string)
    (pre mid post : list team) (u t : team) :
  same_name_ci lower u t ->
  (forall q,
     get_team lower (pre ++ u :: mid ++ t :: post) q
     = get_team lower (pre ++ u :: mid ++ post) q) /\
  (forall qa qb,
     compare_teams lower (pre ++ u :: mid ++ t :: post) qa qb
     = compare_teams lower (pre ++ u :: mid ++ post) qa qb).
Proof.
  intros H. split.
  - intros q. rewrite !get_team_of_find.
    now rewrite (find_shadowed lower pre mid post u t q H).
  - intros qa qb. unfold compare_teams.
    now rewrite !(find_shadowed lower pre mid post u t _ H).
Qed.

Lemma shadowed_record_is_dead_duplicated :
  get_team ascii_lower duplicated "eagles" = get_team ascii_lower [Eagles] "eagles" /\
  compare_teams ascii_lower duplicated "EAGLES" "eagles"
  = compare_teams ascii_lower [Eagles] "EAGLES" "eagles".
Proof.
  destruct (shadowed_record_is_dead ascii_lower [] [] [] Eagles eagles_old)
    as [Hg Hc].
  - exists "Eagles", "eagles". repeat split.
  - split; [apply Hg | apply Hc].
Defined.


